(** * PyDigger crawler: a shallow embedding of [Pydigger_current.py]

    The crawler lists candidate projects on pydigger.com, extracts hosting
    links from each candidate's metadata page, probes every hosting page
    for [setup.py] and [pyproject.toml], drops the links already present in
    the log file and appends the remaining ones to that log file.

    Conventions of the embedding.
    - A Python [str] is a list of characters; characters are the
      256 code points of [ascii] (Latin-1), and the character tables of the
      Python library ([str.split]'s white space, the regex class [\w]) are
      those of Python 3 restricted to that range.
    - [requests.get] is a function from a URL to a response (status code and
      decoded body); it is the only access to the remote services.
    - The file system is a map from file names to contents; [open(..., 'r')]
      of a missing file raises, [open(..., 'a')] creates it.
    - Python exceptions are the [Raise] results of a state-and-error monad
      over the file system.
    - [print] calls are console narration only and are left out. *)

From Stdlib Require Import String DecimalString.
From Stdlib Require DecimalNat.
From Stdlib Require Import List Ascii ZArith Lia Bool Arith PeanoNat.
Import Corelib.Init.Datatypes.
Import ListNotations.

Set Implicit Arguments.

(** ** Python strings *)

Definition str := list ascii.

Definition lit (s : string) : str := list_ascii_of_string s.

Definition str_eqb (a b : str) : bool :=
  if list_eq_dec ascii_dec a b then true else false.

Definition code (c : ascii) : nat := nat_of_ascii c.

Definition in_range (lo hi : nat) (c : ascii) : bool :=
  (lo <=? code c) && (code c <=? hi).

(** [str.isspace] on a single character, as used by [str.split()]:
    TAB..CR, FS..US and SPACE, NEL, NBSP. *)
Definition isspace (c : ascii) : bool :=
  in_range 9 13 c || in_range 28 32 c || (code c =? 133) || (code c =? 160).

Definition isdigit (c : ascii) : bool := in_range 48 57 c.

(** ASCII letters, the ranges [a-z] and [A-Z] of a character class. *)
Definition isletter (c : ascii) : bool := in_range 97 122 c || in_range 65 90 c.

(** The regex class [\w] on [str] patterns: alphanumeric or underscore. *)
Definition isword (c : ascii) : bool :=
  isdigit c || isletter c || (code c =? 95)
  || (code c =? 170) || (code c =? 178) || (code c =? 179) || (code c =? 181)
  || (code c =? 185) || (code c =? 186) || in_range 188 190 c
  || in_range 192 214 c || in_range 216 246 c || in_range 248 255 c.

(** [in_str.split()]: maximal runs of non-space characters, in order.
    [cur] holds the characters of the run being read, last one first. *)
Fixpoint split_from (cur : str) (s : str) : list str :=
  match s with
  | [] => match cur with [] => [] | _ => [rev cur] end
  | c :: s' =>
      if isspace c then
        match cur with
        | [] => split_from [] s'
        | _ => rev cur :: split_from [] s'
        end
      else split_from (c :: cur) s'
  end.

Definition split (s : str) : list str := split_from [] s.

(** [sep.join(l)] *)
Fixpoint join (sep : str) (l : list str) : str :=
  match l with
  | [] => []
  | [x] => x
  | x :: rest => x ++ sep ++ join sep rest
  end.

(** [x in l] for a list of strings *)
Definition mem (x : str) (l : list str) : bool := existsb (str_eqb x) l.

(** [s[start:stop]] for [0 <= start <= stop] *)
Definition slice (s : str) (start stop : nat) : str :=
  firstn (stop - start) (skipn start s).

(** Truth value of a list: non-empty. *)
Definition truthy {A} (l : list A) : bool :=
  match l with [] => false | _ => true end.

(** [str(n)] for a non-negative [int] *)
Definition str_of_nat (n : nat) : str :=
  lit (NilZero.string_of_uint (Nat.to_uint n)).

(** ["%0wd" % n] *)
Definition zero_padded (w n : nat) : str :=
  let d := str_of_nat n in
  repeat "0"%char (w - length d) ++ d.

(** ** Regular expressions

    The patterns of the crawler all have one of three shapes: a literal, a
    literal followed by a greedy class repetition, or a literal followed by
    one capturing group made of a literal and a greedy non-empty class
    repetition.  The repetition is always last, so the greedy choice is
    never revised. *)

Inductive regex : Type :=
| RLit (l : str)
| RLitStar (l : str) (cls : ascii -> bool)
| RLitGroupPlus (l g : str) (cls : ascii -> bool).

(** [strip_prefix p s]: the rest of [s] after [p], when [s] starts with [p]. *)
Fixpoint strip_prefix (p s : str) : option str :=
  match p, s with
  | [], _ => Some s
  | _ :: _, [] => None
  | a :: p', b :: s' => if ascii_dec a b then strip_prefix p' s' else None
  end.

(** Longest prefix of [s] made of characters of the class. *)
Fixpoint run (cls : ascii -> bool) (s : str) : str :=
  match s with
  | [] => []
  | c :: s' => if cls c then c :: run cls s' else []
  end.

(** A match attempt anchored at the head of [s]: the length of the match
    and what [findall] reports for it (group 1 when the pattern has a
    group, the whole match otherwise). *)
Definition match_at (r : regex) (s : str) : option (nat * str) :=
  match r with
  | RLit l =>
      match strip_prefix l s with
      | Some _ => Some (length l, l)
      | None => None
      end
  | RLitStar l cls =>
      match strip_prefix l s with
      | Some rest => let t := run cls rest in Some (length l + length t, l ++ t)
      | None => None
      end
  | RLitGroupPlus l g cls =>
      match strip_prefix (l ++ g) s with
      | Some rest =>
          match run cls rest with
          | [] => None
          | t => Some (length l + length g + length t, g ++ t)
          end
      | None => None
      end
  end.

(** Left-to-right search for all non-overlapping matches.  [pos] is the
    index of the head of [s] in the searched string; [skip] counts the
    characters still covered by the previous match.  Each item is the span
    [(start, stop)] of a match and the string [findall] reports for it.
    The literals of the crawler's patterns are not empty, so a match always
    covers at least one character and the search resumes at its end. *)
Fixpoint scan (r : regex) (pos skip : nat) (s : str) : list (nat * nat * str) :=
  match s with
  | [] => []
  | _ :: s' =>
      match skip with
      | S k => scan r (S pos) k s'
      | O =>
          match match_at r s with
          | Some (len, t) => (pos, pos + len, t) :: scan r (S pos) (len - 1) s'
          | None => scan r (S pos) 0 s'
          end
      end
  end.

(** [re.findall(r, s)] *)
Definition findall (r : regex) (s : str) : list str :=
  map snd (scan r 0 0 s).

(** [[m.span() for m in re.finditer(r, s)]] *)
Definition finditer (r : regex) (s : str) : list (nat * nat) :=
  map fst (scan r 0 0 s).

(** ** [datetime] *)

Record datetime : Type := Datetime {
  year : nat; month : nat; day : nat;
  hour : nat; minute : nat; second : nat; microsecond : nat
}.

(** [str(d)] for a naive [datetime]: ISO format with a space separator,
    the fraction printed only when it is not zero. *)
Definition str_datetime (d : datetime) : str :=
  zero_padded 4 (year d) ++ lit "-" ++ zero_padded 2 (month d) ++ lit "-"
  ++ zero_padded 2 (day d) ++ lit " " ++ zero_padded 2 (hour d) ++ lit ":"
  ++ zero_padded 2 (minute d) ++ lit ":" ++ zero_padded 2 (second d)
  ++ match microsecond d with
     | O => []
     | us => lit "." ++ zero_padded 6 us
     end.

(** ** The remote services and the file system *)

Record response : Type := Response { status_code : Z; text : str }.

Definition filesystem := str -> option str.

Definition write_file (fs : filesystem) (name data : str) : filesystem :=
  fun n => if str_eqb n name then Some data else fs n.

Inductive exn : Type := TypeError | FileNotFoundError.

Inductive result (A : Type) : Type :=
| Ok (a : A)
| Raise (e : exn).
Arguments Raise {A} e.

(** Computations that read and write files and may raise. *)
Definition IO (A : Type) : Type := filesystem -> result A * filesystem.

Definition ret {A} (a : A) : IO A := fun fs => (Ok a, fs).

Definition raise {A} (e : exn) : IO A := fun fs => (Raise e, fs).

Definition bind {A B} (m : IO A) (k : A -> IO B) : IO B :=
  fun fs =>
    match m fs with
    | (Ok a, fs') => k a fs'
    | (Raise e, fs') => (Raise e, fs')
    end.

Notation "x <- m ;; k" := (bind m (fun x => k))
  (at level 61, m at next level, right associativity).
Notation "m ;;; k" := (bind m (fun _ => k))
  (at level 61, right associativity).

(** [with open(name, 'r') as f: f.read()] *)
Definition read_file (name : str) : IO str :=
  fun fs =>
    match fs name with
    | Some content => (Ok content, fs)
    | None => (Raise FileNotFoundError, fs)
    end.

(** [with open(name, 'a') as f: f.write(data)] *)
Definition append_file (name data : str) : IO unit :=
  fun fs =>
    match fs name with
    | Some content => (Ok tt, write_file fs name (content ++ data))
    | None => (Ok tt, write_file fs name data)
    end.

(** Iterating over a value that may be [None]: [enumerate(None)] raises. *)
Definition iterable (o : option (list str)) : IO (list str) :=
  match o with
  | Some l => ret l
  | None => raise TypeError
  end.

(** ** The patterns of the crawler *)

Definition dquote : str := ["034"%char].

(** [[\w-]] *)
Definition word_or_hyphen (c : ascii) : bool := isword c || (c =? "-")%char.

(** [[^}]] *)
Definition not_rbrace (c : ascii) : bool := negb (c =? "}")%char.

(** [[-_a-zA-Z/.d]] *)
Definition git_class (c : ascii) : bool :=
  (c =? "-")%char || (c =? "_")%char || in_range 97 122 c || in_range 65 90 c
  || (c =? "/")%char || (c =? ".")%char || (c =? "d")%char.

(** The row-link pattern of the listing page: the anchor opening
    [<td><a href=], a double quote, [/pypi/] and the group [([\w-]+)]. *)
Definition pdig_pattern : regex :=
  RLitGroupPlus (lit "<td><a href=" ++ dquote ++ lit "/pypi/") [] word_or_hyphen.

(** [project_urls[^}]*] *)
Definition get_json_pattern : regex := RLitStar (lit "project_urls") not_rbrace.

(** [Homepage&#34;: &#34;(https://git[-_a-zA-Z/.d]+)] *)
Definition home_regex : regex :=
  RLitGroupPlus (lit "Homepage&#34;: &#34;") (lit "https://git") git_class.

(** [Repository&#34;: &#34;(https://git[-_a-zA-Z/.d]+)] *)
Definition rep_regex : regex :=
  RLitGroupPlus (lit "Repository&#34;: &#34;") (lit "https://git") git_class.

(** [setup\.py] *)
Definition setup_py_pattern : regex := RLit (lit "setup.py").

(** [pyproject\.toml] *)
Definition pyproject_toml_pattern : regex := RLit (lit "pyproject.toml").

Definition list_eqb (a b : list str) : bool :=
  if list_eq_dec (list_eq_dec ascii_dec) a b then true else false.

(** ** The crawler *)

Section Crawler.

(** [requests.get] *)
Variable requests_get : str -> response.

Definition get_link_from_pdig (page : str) : option (list str) :=
  let response := requests_get page in
  if negb (status_code response =? 200)%Z then None
  else
    let matches := findall pdig_pattern (text response) in
    Some (fold_left
            (fun json_link_list link =>
               json_link_list ++ [lit "https://pydigger.com/pypi/" ++ link])
            matches []).

Definition get_link_from_json (json_site : str) : list str :=
  let git_response := requests_get json_site in
  if negb (status_code git_response =? 200)%Z then []
  else
    let source_jason := text git_response in
    let matches := finditer get_json_pattern source_jason in
    fold_left
      (fun git_list '(start, stop) =>
         let git_chunk := slice source_jason start stop in
         let home_pattern := findall home_regex git_chunk in
         let rep_pattern := findall rep_regex git_chunk in
         let git_list :=
           if truthy home_pattern then git_list ++ home_pattern else git_list in
         if truthy rep_pattern && negb (list_eqb rep_pattern home_pattern)
         then git_list ++ rep_pattern else git_list)
      matches [].

Definition check_setup_py_in_git (unfiltered_links : list str) : list str :=
  fold_left
    (fun filtered_links link =>
       let response := requests_get link in
       if negb (status_code response =? 200)%Z then filtered_links
       else
         let web_text := text response in
         let matches := findall setup_py_pattern web_text in
         if truthy matches then filtered_links ++ [link] else filtered_links)
    unfiltered_links [].

Definition filter_toml_in_git (unfiltered_links : list str) : list str :=
  fold_left
    (fun filtered_links link =>
       let response := requests_get link in
       if negb (status_code response =? 200)%Z then filtered_links
       else
         let web_text := text response in
         let matches := findall pyproject_toml_pattern web_text in
         if negb (truthy matches) then filtered_links ++ [link]
         else filtered_links)
    unfiltered_links [].

Definition filterout_logged (current_log_file_name : str)
    (candidate_list : list str) : IO (list str) :=
  in_str <- read_file current_log_file_name ;;
  ret (fold_left
         (fun filtered_list candidate =>
            if negb (mem candidate (split in_str))
            then filtered_list ++ [candidate] else filtered_list)
         candidate_list []).

Definition NUMBER_OF_ENTRIES : nat := 20.

Definition pydigger_link : str :=
  lit "https://pydigger.com/search/has-vcs-no-author?q=&page=1&limit="
  ++ str_of_nat NUMBER_OF_ENTRIES.

Definition log_file_name : str := lit "git_log.txt".

Definition newline : str := ["010"%char].

(** The block written to the log file, [output_lines] in [main]. *)
Definition output_lines (utc_now : datetime) (gits_checked_list : list str) : str :=
  newline ++ newline ++ newline ++ newline ++ lit "Results "
  ++ str_datetime utc_now ++ lit " :" ++ newline
  ++ join newline gits_checked_list ++ newline.

(** [main], given the value [datetime.datetime.utcnow()] returns during
    the run.  The result is the final list, the one [main] prints and
    logs. *)
Definition main (utc_now : datetime) : IO (list str) :=
  let pdig_link_list := get_link_from_pdig pydigger_link in
  links <- iterable pdig_link_list ;;
  let git_link_list :=
    fold_left
      (fun git_link_list link =>
         let new_link_to_github := get_link_from_json link in
         if truthy new_link_to_github
         then git_link_list ++ new_link_to_github else git_link_list)
      links [] in
  let gits_checked_list := check_setup_py_in_git git_link_list in
  let gits_checked_list := filter_toml_in_git gits_checked_list in
  gits_checked_list <- filterout_logged log_file_name gits_checked_list ;;
  append_file log_file_name (output_lines utc_now gits_checked_list) ;;;
  ret gits_checked_list.

End Crawler.

(** ** Vocabulary of the specification *)

(** The marker occurs somewhere in the page text. *)
Definition occurs (marker s : str) : Prop :=
  exists pre post, s = pre ++ marker ++ post.

Fixpoint contains (marker s : str) : bool :=
  match strip_prefix marker s with
  | Some _ => true
  | None => match s with [] => false | _ :: s' => contains marker s' end
  end.

Definition fetch_ok (requests_get : str -> response) (link : str) : bool :=
  (status_code (requests_get link) =? 200)%Z.

(** SignalProbe in the words of the specification: keep, in input order,
    the links whose fetch succeeds and whose page has the marker exactly
    when [keepWhenPresent] says so. *)
Definition SignalProbe (requests_get : str -> response) (links : list str)
    (marker : str) (keepWhenPresent : bool) : list str :=
  filter
    (fun link =>
       fetch_ok requests_get link
       && Bool.eqb (contains marker (text (requests_get link))) keepWhenPresent)
    links.

Definition no_space (t : str) : Prop := Forall (fun c => isspace c = false) t.

Definition ends_with_space (pre : str) : Prop :=
  pre = [] \/ exists p w, pre = p ++ [w] /\ isspace w = true.

Definition starts_with_space (post : str) : Prop :=
  post = [] \/ exists w q, post = w :: q /\ isspace w = true.

(** [t] is a whitespace-delimited token of [blob]: a non-empty run without
    white space, bounded on each side by white space or by an end of the
    blob. *)
Definition is_token (blob t : str) : Prop :=
  t <> [] /\ no_space t /\
  exists pre post,
    blob = pre ++ t ++ post /\ ends_with_space pre /\ starts_with_space post.

(** The first [project_urls] block of a page: from the first occurrence of
    [project_urls] up to, not including, the next closing brace. *)
Definition first_block (page : str) : option str :=
  match finditer get_json_pattern page with
  | (start, stop) :: _ => Some (slice page start stop)
  | [] => None
  end.

(** The shape of a hosting link: [https://git] followed by letters,
    hyphens, underscores, slashes and dots. *)
Definition link_char (c : ascii) : bool :=
  isletter c || (c =? "-")%char || (c =? "_")%char || (c =? "/")%char
  || (c =? ".")%char.

Definition hosting_link_shape (x : str) : Prop :=
  exists rest,
    x = lit "https://git" ++ rest /\ rest <> [] /\
    Forall (fun c => link_char c = true) rest /\
    Forall (fun c => isdigit c = false) rest.

(** The parts of the block the crawler appends to the log file. *)
Definition separator : str := newline ++ newline ++ newline ++ newline.

Definition header (utc_now : datetime) : str :=
  lit "Results " ++ str_datetime utc_now ++ lit " :".



(** The links that reach the history filter, for the metadata links the
    listing stage produced. *)
Definition probed_links (requests_get : str -> response) (links : list str) : list str :=
  filter_toml_in_git requests_get
    (check_setup_py_in_git requests_get
       (flat_map (get_link_from_json requests_get) links)).

(** ** Fixtures *)

(** A service that answers every request with the same page. *)
Definition serve (page : str) : str -> response :=
  fun _ => Response 200 page.

(** A service that is down. *)
Definition unavailable : str -> response :=
  fun _ => Response 404 [].

Definition page_one_block : str :=
  lit "{&#34;project_urls&#34;: {&#34;Homepage&#34;: &#34;https://github.com/a/b&#34;}}".

Definition page_two_blocks : str :=
  page_one_block
  ++ lit " {&#34;project_urls&#34;: {&#34;Homepage&#34;: &#34;https://github.com/c/e&#34;}}".

Definition page_three_links : str :=
  lit "{&#34;project_urls&#34;: {&#34;Homepage&#34;: &#34;https://github.com/a/b&#34;, &#34;Docs Homepage&#34;: &#34;https://github.com/a/b/wiki&#34;, &#34;Repository&#34;: &#34;https://github.com/a/b.git&#34;}}".

Definition page_mirror : str :=
  lit "{&#34;project_urls&#34;: {&#34;Homepage&#34;: &#34;https://github.com/a/b&#34;, &#34;Repository&#34;: &#34;https://github.com/a/b&#34;, &#34;Mirror Repository&#34;: &#34;https://gitlab.com/a/b&#34;}}".

Definition link_ab : str := lit "https://github.com/a/b".

(** A small web: a listing with one row, its metadata page, and a hosting
    page that mentions [setup.py] only. *)
Definition demo_web (url : str) : response :=
  if str_eqb url pydigger_link then
    Response 200 (lit "<tr><td><a href=" ++ dquote ++ lit "/pypi/demo-pkg" ++ dquote ++ lit ">demo-pkg</a></td></tr>")
  else if str_eqb url (lit "https://pydigger.com/pypi/demo-pkg") then
    Response 200 page_one_block
  else if str_eqb url link_ab then
    Response 200 (lit "<a href=setup.py>setup.py</a>")
  else Response 404 [].

(** Three hosting pages for the stable-filter example: [A] and [C] mention
    the marker, [B] cannot be fetched. *)
Definition abc_web (url : str) : response :=
  if str_eqb url (lit "A") then Response 200 (lit "x setup.py y")
  else if str_eqb url (lit "B") then Response 500 (lit "setup.py")
  else if str_eqb url (lit "C") then Response 200 (lit "setup.py")
  else Response 404 [].

Definition empty_log : filesystem :=
  fun name => if str_eqb name log_file_name then Some [] else None.

Definition no_files : filesystem := fun _ => None.

Definition some_time : datetime := Datetime 2024 8 12 10 11 12 4816.

(** ** Listing pages

    A listing page as a sequence of rows: each row is the row anchor, the
    project identifier and the text up to the next row. *)

(** The literal part of the row-link pattern. *)
Definition anchor : str := lit "<td><a href=" ++ dquote ++ lit "/pypi/".

Definition render_rows (rows : list (str * str)) : str :=
  flat_map (fun row => anchor ++ fst row ++ snd row) rows.

(** No row anchor starts inside [t], whatever row follows it. *)
Definition anchor_free (t : str) : Prop :=
  contains anchor (t ++ removelast anchor) = false.

(** A row whose identifier is a non-empty run of [[\w-]] characters and
    whose remaining text ends the identifier and starts no other row. *)
Definition row_ok (row : str * str) : Prop :=
  fst row <> [] /\
  Forall (fun c => word_or_hyphen c = true) (fst row) /\
  (exists c q, snd row = c :: q /\ word_or_hyphen c = false) /\
  anchor_free (snd row).

Definition listing_head : str := lit "<table><tr>".

Definition two_rows : list (str * str) :=
  [ (lit "demo-pkg", dquote ++ lit ">demo-pkg</a></td><td>1.0</td></tr><tr>");
    (lit "other_pkg2", dquote ++ lit ">other_pkg2</a></td></tr></table>") ].

(** A later state of the small web: the metadata page has gained a second
    block, and both hosting pages mention [setup.py]. *)
Definition later_web (url : str) : response :=
  if str_eqb url pydigger_link then demo_web url
  else if str_eqb url (lit "https://pydigger.com/pypi/demo-pkg") then
    Response 200 page_two_blocks
  else if str_eqb url link_ab then Response 200 (lit "setup.py")
  else if str_eqb url (lit "https://github.com/c/e") then
    Response 200 (lit "setup.py")
  else Response 404 [].

(** ** Reading a log block back

    What a reader of the log file sees, stated without the definitions of
    the crawler: the lines of a text and the time a stamp denotes. *)

(** The line feed character. *)
Definition LF : ascii := "010"%char.










Definition link_ce : str := lit "https://github.com/c/e".

(** A log file that already holds the block of an earlier run. *)
Definition seen_text : str :=
  [LF; LF; LF; LF] ++ lit "Results 2024-08-11 09:00:00 :" ++ [LF]
  ++ lit "https://github.com/x/y" ++ [LF].

Definition seen_log : filesystem :=
  fun name => if str_eqb name log_file_name then Some seen_text else None.

(** * Properties *)

(** ** Loops that build a list by appending *)

Lemma fold_left_append_if {A : Type} (p : A -> bool) (l acc : list A) :
  fold_left (fun acc x => if p x then acc ++ [x] else acc) l acc
  = acc ++ filter p l.
Proof.
  revert acc; induction l as [|x l IH]; intros acc; simpl.
  - now rewrite app_nil_r.
  - rewrite IH. destruct (p x); simpl; [now rewrite <- app_assoc | reflexivity].
Qed.

Lemma filter_none {A : Type} (p : A -> bool) (l : list A) :
  (forall x, In x l -> p x = false) -> filter p l = [].
Proof.
  induction l as [|x l IH]; intros H; simpl; [reflexivity |].
  rewrite (H x) by now left. apply IH. intros y Hy. apply H. now right.
Qed.

Lemma fold_left_invariant {A B : Type} (P : A -> Prop) (f : A -> B -> A)
    (l : list B) (acc : A) :
  (forall a b, In b l -> P a -> P (f a b)) -> P acc -> P (fold_left f l acc).
Proof.
  revert acc; induction l as [|x l IH]; intros acc Hstep Hacc; simpl; auto.
  apply IH.
  - intros a b Hb. apply Hstep. now right.
  - apply Hstep; [now left | assumption].
Qed.

(** ** String equality and membership *)

Lemma str_eqb_eq (a b : str) : str_eqb a b = true <-> a = b.
Proof.
  unfold str_eqb. destruct (list_eq_dec ascii_dec a b); split; congruence.
Qed.

Lemma str_eqb_refl (a : str) : str_eqb a a = true.
Proof. now apply str_eqb_eq. Qed.

Lemma mem_In (x : str) (l : list str) : mem x l = true <-> In x l.
Proof.
  unfold mem. rewrite existsb_exists. split.
  - intros (y & Hy & E). apply str_eqb_eq in E. now subst.
  - intros H. exists x. split; [assumption | apply str_eqb_refl].
Qed.

Lemma mem_false (x : str) (l : list str) : mem x l = false <-> ~ In x l.
Proof.
  rewrite <- mem_In. destruct (mem x l); split; congruence.
Qed.

(** ** [split] *)

Lemma split_from_app_space (w : ascii) (a b cur : str) :
  isspace w = true ->
  split_from cur (a ++ w :: b) = split_from cur a ++ split b.
Proof.
  intros Hw. revert cur. induction a as [|c a IH]; intros cur; simpl.
  - rewrite Hw. destruct cur; reflexivity.
  - destruct (isspace c).
    + destruct cur; rewrite IH; reflexivity.
    + apply IH.
Qed.

Lemma split_from_run (t s cur : str) :
  no_space t -> split_from cur (t ++ s) = split_from (rev t ++ cur) s.
Proof.
  intros Ht. revert cur. induction Ht as [|c t Hc Ht IH]; intros cur; simpl.
  - reflexivity.
  - rewrite Hc, IH. now rewrite <- app_assoc.
Qed.

Lemma split_word (t : str) : t <> [] -> no_space t -> split t = [t].
Proof.
  intros Hne Ht. unfold split.
  rewrite <- (app_nil_r t) at 1. rewrite split_from_run by assumption.
  rewrite app_nil_r. simpl.
  destruct (rev t) eqn:E.
  - apply (f_equal (@rev ascii)) in E. rewrite rev_involutive in E. now subst.
  - now rewrite <- E, rev_involutive.
Qed.

Lemma split_app_space (w : ascii) (a b : str) :
  isspace w = true -> split (a ++ w :: b) = split a ++ split b.
Proof. intros Hw. now apply split_from_app_space. Qed.

Lemma split_nil : split [] = [].
Proof. reflexivity. Qed.

Lemma split_lines (links : list str) :
  Forall (fun t => t <> [] /\ no_space t) links ->
  split (join newline links ++ newline) = links.
Proof.
  induction 1 as [|x l [Hne Hx] Hl IH].
  - reflexivity.
  - destruct l as [|y l].
    + simpl. unfold newline. rewrite split_app_space by reflexivity.
      rewrite split_word by assumption. reflexivity.
    + change (join newline (x :: y :: l)) with (x ++ newline ++ join newline (y :: l)).
      rewrite <- !app_assoc. unfold newline at 1. simpl app at 2.
      rewrite split_app_space by reflexivity.
      rewrite split_word by assumption. simpl. f_equal. exact IH.
Qed.

(** The list [split] returns holds exactly the whitespace-delimited tokens. *)

Lemma is_token_after_space (a b t : str) (w : ascii) :
  isspace w = true -> is_token b t -> is_token (a ++ w :: b) t.
Proof.
  intros Hw (Hne & Hns & pre & post & -> & Hpre & Hpost).
  split; [assumption | split; [assumption |]].
  exists (a ++ w :: pre), post. split; [| split; [| assumption]].
  - now rewrite <- app_assoc.
  - right. destruct Hpre as [-> | (p & w' & -> & Hw')].
    + exists a, w. now split.
    + exists (a ++ w :: p), w'. split; [| assumption].
      now rewrite <- app_assoc.
Qed.

Lemma is_token_head (t post : str) :
  t <> [] -> no_space t -> starts_with_space post -> is_token (t ++ post) t.
Proof.
  intros Hne Hns Hpost. split; [assumption | split; [assumption |]].
  exists [], post. split; [reflexivity | split; [now left | assumption]].
Qed.

Lemma split_from_is_token (s cur t : str) :
  no_space cur -> In t (split_from cur s) -> is_token (rev cur ++ s) t.
Proof.
  revert cur. induction s as [|c s IH]; intros cur Hcur Hin; simpl in Hin.
  - destruct cur as [|d cur]; [contradiction |].
    destruct Hin as [<- | []].
    apply is_token_head.
    + simpl. now destruct (rev cur).
    + now apply Forall_rev.
    + now left.
  - destruct (isspace c) eqn:Hc.
    + destruct cur as [|d cur].
      * apply (is_token_after_space []); [assumption |].
        apply (IH []); [constructor | assumption].
      * destruct Hin as [<- | Hin].
        -- apply is_token_head.
           ++ simpl. now destruct (rev cur).
           ++ now apply Forall_rev.
           ++ right. now exists c, s.
        -- apply is_token_after_space; [assumption |].
           apply (IH []); [constructor | assumption].
    + specialize (IH (c :: cur)). simpl in IH. rewrite <- app_assoc in IH.
      apply IH; [now constructor | assumption].
Qed.

Lemma is_token_split (s t : str) : is_token s t -> In t (split s).
Proof.
  intros (Hne & Hns & pre & post & -> & Hpre & Hpost).
  assert (Htail : In t (split (t ++ post))).
  { destruct Hpost as [-> | (w & q & -> & Hw)].
    - rewrite app_nil_r, split_word by assumption. now left.
    - rewrite split_app_space, split_word by assumption. now left. }
  destruct Hpre as [-> | (p & w & -> & Hw)]; [assumption |].
  rewrite <- app_assoc. simpl. rewrite split_app_space by assumption.
  apply in_or_app. now right.
Qed.

Lemma split_spec (s t : str) : In t (split s) <-> is_token s t.
Proof.
  split.
  - intros H. apply (split_from_is_token s (cur := [])); [constructor | assumption].
  - apply is_token_split.
Qed.

(** ** Regular expression search *)

Lemma strip_prefix_app (p s rest : str) :
  strip_prefix p s = Some rest <-> s = p ++ rest.
Proof.
  revert s. induction p as [|a p IH]; intros s; simpl.
  - split; congruence.
  - destruct s as [|b s]; [split; discriminate |].
    destruct (ascii_dec a b) as [-> | Hab].
    + rewrite IH. split; congruence.
    + split; [discriminate | congruence].
Qed.

Lemma run_Forall (cls : ascii -> bool) (s : str) :
  Forall (fun c => cls c = true) (run cls s).
Proof.
  induction s as [|c s IH]; simpl; [constructor |].
  destruct (cls c) eqn:E; now constructor.
Qed.

(** Every item reported by a search is a match anchored at some suffix. *)
Lemma scan_match_at (r : regex) (s : str) (pos skip : nat) (item : nat * nat * str) :
  In item (scan r pos skip s) ->
  exists s' len, match_at r s' = Some (len, snd item).
Proof.
  revert pos skip. induction s as [|c s IH]; intros pos skip Hin; simpl in Hin.
  - contradiction.
  - destruct skip as [|k]; [| now apply IH in Hin].
    destruct (match_at r (c :: s)) as [[len t]|] eqn:E.
    + destruct Hin as [<- | Hin]; [| now apply IH in Hin].
      now exists (c :: s), len.
    + now apply IH in Hin.
Qed.

Lemma findall_group_shape (l g : str) (cls : ascii -> bool) (s x : str) :
  In x (findall (RLitGroupPlus l g cls) s) ->
  exists t, x = g ++ t /\ t <> [] /\ Forall (fun c => cls c = true) t.
Proof.
  unfold findall. rewrite in_map_iff. intros (item & <- & Hin).
  apply scan_match_at in Hin. destruct Hin as (s' & len & Hm).
  simpl in Hm. destruct (strip_prefix (l ++ g) s') as [rest|]; [| discriminate].
  pose proof (run_Forall cls rest) as Hrun.
  destruct (run cls rest) as [|c t] eqn:E; [discriminate |].
  injection Hm as _ <-. exists (c :: t). repeat split; [discriminate | assumption].
Qed.

(** A literal pattern is found exactly when the literal occurs. *)
Lemma contains_occurs (marker s : str) : contains marker s = true <-> occurs marker s.
Proof.
  induction s as [|c s IH]; simpl.
  - destruct (strip_prefix marker []) as [rest|] eqn:E.
    + apply strip_prefix_app in E. split; [| reflexivity].
      intros _. exists [], rest. exact E.
    + split; [discriminate |]. intros (pre & post & H).
      destruct pre; [| discriminate]. simpl in H.
      apply strip_prefix_app in H. congruence.
  - destruct (strip_prefix marker (c :: s)) as [rest|] eqn:E.
    + apply strip_prefix_app in E. split; [| reflexivity].
      intros _. exists [], rest. exact E.
    + rewrite IH. split.
      * intros (pre & post & ->). now exists (c :: pre), post.
      * intros (pre & post & H). destruct pre as [|d pre].
        -- simpl in H. apply strip_prefix_app in H. congruence.
        -- injection H as _ ->. now exists pre, post.
Qed.

Lemma scan_literal (l s : str) (pos : nat) :
  l <> [] -> truthy (scan (RLit l) pos 0 s) = contains l s.
Proof.
  intros Hl. revert pos. induction s as [|c s IH]; intros pos; simpl.
  - destruct l; [contradiction | reflexivity].
  - destruct (strip_prefix l (c :: s)); [reflexivity | apply IH].
Qed.

Lemma findall_literal (l s : str) :
  l <> [] -> truthy (findall (RLit l) s) = contains l s.
Proof.
  intros Hl. unfold findall. rewrite <- (scan_literal s 0 Hl).
  now destruct (scan (RLit l) 0 0 s).
Qed.

(** ** The stages of the crawler *)

Lemma fold_left_keep {A : Type} (f : list A -> A -> list A) (p : A -> bool)
    (l acc : list A) :
  (forall acc x, f acc x = if p x then acc ++ [x] else acc) ->
  fold_left f l acc = acc ++ filter p l.
Proof.
  intros Hf. rewrite <- fold_left_append_if.
  revert acc. induction l as [|x l IH]; intros acc; simpl; [reflexivity |].
  now rewrite Hf, IH.
Qed.

Lemma setup_py_not_nil : lit "setup.py" <> [].
Proof. discriminate. Qed.

Lemma pyproject_toml_not_nil : lit "pyproject.toml" <> [].
Proof. discriminate. Qed.

Lemma check_setup_py_in_git_probe (rg : str -> response) (links : list str) :
  check_setup_py_in_git rg links = SignalProbe rg links (lit "setup.py") true.
Proof.
  unfold check_setup_py_in_git, SignalProbe.
  rewrite fold_left_keep with
    (p := fun link => fetch_ok rg link
                      && Bool.eqb (contains (lit "setup.py") (text (rg link))) true).
  - reflexivity.
  - intros acc x. unfold fetch_ok, setup_py_pattern.
    rewrite (findall_literal _ setup_py_not_nil).
    destruct (status_code (rg x) =? 200)%Z,
      (contains (lit "setup.py") (text (rg x))); reflexivity.
Qed.

Lemma filter_toml_in_git_probe (rg : str -> response) (links : list str) :
  filter_toml_in_git rg links = SignalProbe rg links (lit "pyproject.toml") false.
Proof.
  unfold filter_toml_in_git, SignalProbe.
  rewrite fold_left_keep with
    (p := fun link => fetch_ok rg link
                      && Bool.eqb (contains (lit "pyproject.toml") (text (rg link))) false).
  - reflexivity.
  - intros acc x. unfold fetch_ok, pyproject_toml_pattern.
    rewrite (findall_literal _ pyproject_toml_not_nil).
    destruct (status_code (rg x) =? 200)%Z,
      (contains (lit "pyproject.toml") (text (rg x))); reflexivity.
Qed.

Lemma SignalProbe_In (rg : str -> response) (links : list str) (marker : str)
    (keep : bool) (link : str) :
  In link (SignalProbe rg links marker keep) <->
  In link links /\ fetch_ok rg link = true /\
  (occurs marker (text (rg link)) <-> keep = true).
Proof.
  unfold SignalProbe. rewrite filter_In, andb_true_iff, eqb_true_iff.
  rewrite <- contains_occurs.
  split; intros (H1 & H2 & H3); (split; [assumption | split; [assumption |]]).
  - rewrite H3. tauto.
  - destruct (contains marker (text (rg link))), keep; intuition congruence.
Qed.

Lemma filterout_logged_run (fs : filesystem) (name blob : str) (cands : list str) :
  fs name = Some blob ->
  filterout_logged name cands fs
  = (Ok (filter (fun c => negb (mem c (split blob))) cands), fs).
Proof.
  intros Hfs. unfold filterout_logged, bind, read_file, ret. rewrite Hfs.
  now rewrite fold_left_append_if.
Qed.

Lemma filterout_logged_missing (fs : filesystem) (name : str) (cands : list str) :
  fs name = None -> filterout_logged name cands fs = (Raise FileNotFoundError, fs).
Proof.
  intros Hfs. unfold filterout_logged, bind, read_file. now rewrite Hfs.
Qed.

(** Every string the metadata stage returns has the hosting-link shape. *)

Lemma git_class_link_char (c : ascii) : git_class c = true -> link_char c = true.
Proof.
  unfold git_class, link_char, isletter. intros H.
  repeat (apply orb_prop in H; destruct H as [H | H]);
    try (rewrite H; now rewrite ?orb_true_r).
  apply Ascii.eqb_eq in H. now subst.
Qed.

Lemma link_char_not_digit (c : ascii) : link_char c = true -> isdigit c = false.
Proof.
  unfold link_char, isletter, isdigit, in_range. intros H.
  repeat (apply orb_prop in H; destruct H as [H | H]);
    try (apply Ascii.eqb_eq in H; now subst).
  - apply andb_prop in H. destruct H as [H1 H2].
    apply Nat.leb_le in H1. apply andb_false_iff. right. apply Nat.leb_gt. lia.
  - apply andb_prop in H. destruct H as [H1 H2].
    apply Nat.leb_le in H1. apply andb_false_iff. right. apply Nat.leb_gt. lia.
Qed.

Lemma findall_git_shape (key s x : str) :
  In x (findall (RLitGroupPlus key (lit "https://git") git_class) s) ->
  hosting_link_shape x.
Proof.
  intros H. apply findall_group_shape in H. destruct H as (t & -> & Hne & Ht).
  exists t. split; [reflexivity | split; [assumption |]].
  split; eapply Forall_impl; try exact Ht; simpl; intros c Hc.
  - now apply git_class_link_char.
  - now apply link_char_not_digit, git_class_link_char.
Qed.

Lemma get_link_from_json_shape (rg : str -> response) (json_site : str) :
  Forall hosting_link_shape (get_link_from_json rg json_site).
Proof.
  unfold get_link_from_json.
  destruct (negb (status_code (rg json_site) =? 200)%Z); [constructor |].
  apply fold_left_invariant; [| constructor].
  intros acc [start stop] _ Hacc.
  set (chunk := slice (text (rg json_site)) start stop).
  assert (Hhome : Forall hosting_link_shape (findall home_regex chunk)).
  { apply Forall_forall. intros x. apply findall_git_shape. }
  assert (Hrep : Forall hosting_link_shape (findall rep_regex chunk)).
  { apply Forall_forall. intros x. apply findall_git_shape. }
  assert (Hmid : Forall hosting_link_shape
                   (if truthy (findall home_regex chunk)
                    then acc ++ findall home_regex chunk else acc)).
  { destruct (truthy (findall home_regex chunk)); [| assumption].
    apply Forall_app. now split. }
  destruct (truthy (findall rep_regex chunk)
            && negb (list_eqb (findall rep_regex chunk) (findall home_regex chunk)));
    [| assumption].
  apply Forall_app. now split.
Qed.

Lemma link_char_not_space (c : ascii) : link_char c = true -> isspace c = false.
Proof.
  unfold link_char, isletter, in_range. intros H.
  repeat (apply orb_prop in H; destruct H as [H | H]);
    try (apply Ascii.eqb_eq in H; now subst);
    apply andb_prop in H; destruct H as [H1 H2];
    apply Nat.leb_le in H1; apply Nat.leb_le in H2;
    unfold isspace, in_range;
    repeat (apply orb_false_iff; split);
    try (apply andb_false_iff; right; apply Nat.leb_gt; lia);
    apply Nat.eqb_neq; lia.
Qed.

Lemma hosting_link_is_word (x : str) :
  hosting_link_shape x -> x <> [] /\ no_space x.
Proof.
  intros (rest & -> & _ & Hrest & _). split; [discriminate |].
  apply Forall_app. split.
  - repeat constructor.
  - eapply Forall_impl; [| exact Hrest]. apply link_char_not_space.
Qed.

Lemma probed_links_shape (rg : str -> response) (links : list str) :
  Forall hosting_link_shape (probed_links rg links).
Proof.
  unfold probed_links.
  rewrite filter_toml_in_git_probe, check_setup_py_in_git_probe.
  apply Forall_forall. intros x Hx.
  apply SignalProbe_In in Hx. destruct Hx as [Hx _].
  apply SignalProbe_In in Hx. destruct Hx as [Hx _].
  apply in_flat_map in Hx. destruct Hx as (site & _ & Hx).
  pose proof (get_link_from_json_shape rg site) as Hs.
  rewrite Forall_forall in Hs. now apply Hs.
Qed.

(** ** [main] *)

Lemma main_flatten (rg : str -> response) (links acc : list str) :
  fold_left
    (fun git_link_list link =>
       let new_link_to_github := get_link_from_json rg link in
       if truthy new_link_to_github
       then git_link_list ++ new_link_to_github else git_link_list)
    links acc
  = acc ++ flat_map (get_link_from_json rg) links.
Proof.
  revert acc. induction links as [|x links IH]; intros acc; simpl.
  - now rewrite app_nil_r.
  - rewrite IH. destruct (get_link_from_json rg x); simpl.
    + reflexivity.
    + now rewrite <- app_assoc.
Qed.

Lemma main_run (rg : str -> response) (utc_now : datetime) (fs : filesystem)
    (links : list str) (old : str) :
  get_link_from_pdig rg pydigger_link = Some links ->
  fs log_file_name = Some old ->
  let kept := filter (fun c => negb (mem c (split old))) (probed_links rg links) in
  main rg utc_now fs
  = (Ok kept, write_file fs log_file_name (old ++ output_lines utc_now kept)).
Proof.
  intros Hlist Hlog kept. unfold main. rewrite Hlist.
  unfold bind at 1. unfold iterable, ret at 1.
  rewrite main_flatten. unfold bind at 1.
  change (filter_toml_in_git rg (check_setup_py_in_git rg ([] ++ flat_map (get_link_from_json rg) links)))
    with (probed_links rg links).
  rewrite (filterout_logged_run _ _ _ Hlog). fold kept.
  unfold bind, append_file, ret. now rewrite Hlog.
Qed.

Lemma main_listing_failed (rg : str -> response) (utc_now : datetime) (fs : filesystem) :
  get_link_from_pdig rg pydigger_link = None ->
  main rg utc_now fs = (Raise TypeError, fs).
Proof.
  intros Hlist. unfold main. rewrite Hlist. reflexivity.
Qed.

Lemma main_log_missing (rg : str -> response) (utc_now : datetime) (fs : filesystem)
    (links : list str) :
  get_link_from_pdig rg pydigger_link = Some links ->
  fs log_file_name = None ->
  main rg utc_now fs = (Raise FileNotFoundError, fs).
Proof.
  intros Hlist Hlog. unfold main. rewrite Hlist.
  unfold bind at 1. unfold iterable, ret at 1. unfold bind at 1.
  now rewrite (filterout_logged_missing _ _ _ Hlog).
Qed.

Lemma main_Ok_inv (rg : str -> response) (utc_now : datetime) (fs : filesystem)
    (kept : list str) :
  fst (main rg utc_now fs) = Ok kept ->
  exists links old,
    get_link_from_pdig rg pydigger_link = Some links /\
    fs log_file_name = Some old /\
    kept = filter (fun c => negb (mem c (split old))) (probed_links rg links).
Proof.
  intros H.
  destruct (get_link_from_pdig rg pydigger_link) as [links|] eqn:Hlist.
  - destruct (fs log_file_name) as [old|] eqn:Hlog.
    + rewrite (main_run _ utc_now _ Hlist Hlog) in H. simpl in H.
      injection H as <-. now exists links, old.
    + rewrite (main_log_missing _ utc_now _ Hlist Hlog) in H. discriminate.
  - rewrite (main_listing_failed _ utc_now _ Hlist) in H. discriminate.
Qed.

Lemma write_file_same (fs : filesystem) (name data : str) :
  write_file fs name data name = Some data.
Proof. unfold write_file. now rewrite str_eqb_refl. Qed.

Lemma write_file_other (fs : filesystem) (name data other : str) :
  other <> name -> write_file fs name data other = fs other.
Proof.
  intros H. unfold write_file. destruct (str_eqb other name) eqn:E; [| reflexivity].
  apply str_eqb_eq in E. contradiction.
Qed.

(** ** The block appended to the log file *)

Lemma output_lines_parts (utc_now : datetime) (links : list str) :
  output_lines utc_now links
  = separator ++ header utc_now ++ newline ++ join newline links ++ newline.
Proof.
  unfold output_lines, separator, header. now rewrite <- !app_assoc.
Qed.


Lemma split_output_lines (old : str) (utc_now : datetime) (links : list str) :
  Forall (fun t => t <> [] /\ no_space t) links ->
  split (old ++ output_lines utc_now links)
  = split old ++ split (header utc_now) ++ links.
Proof.
  intros Hl. rewrite output_lines_parts.
  set (nl := "010"%char).
  change (old ++ separator ++ header utc_now ++ newline ++ join newline links ++ newline)
    with (old ++ nl :: ([] ++ nl :: ([] ++ nl :: ([] ++ nl ::
            (header utc_now ++ nl :: (join newline links ++ newline)))))).
  rewrite !split_app_space by reflexivity.
  rewrite split_nil, split_lines by assumption. reflexivity.
Qed.

(** The header is a single line: a time stamp has digits and punctuation
    only. *)







(** ** Reading a block back *)

Lemma run_stop (cls : ascii -> bool) (id q : str) (c : ascii) :
  Forall (fun a => cls a = true) id -> cls c = false ->
  run cls (id ++ c :: q) = id.
Proof.
  intros Hid Hc. induction Hid as [|a id Ha _ IH]; simpl.
  - now rewrite Hc.
  - now rewrite Ha, IH.
Qed.

Lemma skipn_length_app {A : Type} (a b : list A) : skipn (length a) (a ++ b) = b.
Proof. induction a; simpl; auto. Qed.



















(** * The claims *)

(** C1. End-to-end idempotence: when a run of [main] completes and its
    final list was appended to the log file, a second run against the same
    remote data, at any later time, ends with an empty final list. *)
Theorem main_idempotent (rg : str -> response) (now1 now2 : datetime)
    (fs : filesystem) (kept1 : list str) :
  fst (main rg now1 fs) = Ok kept1 ->
  fst (main rg now2 (snd (main rg now1 fs))) = Ok [].
Proof.
  intros H. destruct (main_Ok_inv _ _ _ H) as (links & old & Hlist & Hlog & Hkept).
  rewrite (main_run _ now1 _ Hlist Hlog). simpl snd. rewrite <- Hkept.
  rewrite (main_run _ now2 _ Hlist (write_file_same _ _ _)). simpl fst.
  f_equal.
  assert (Hshape : Forall (fun t => t <> [] /\ no_space t) kept1).
  { apply Forall_forall. intros x Hx. apply hosting_link_is_word.
    subst kept1. apply filter_In in Hx. destruct Hx as [Hx _].
    pose proof (probed_links_shape rg links) as Hs.
    rewrite Forall_forall in Hs. now apply Hs. }
  rewrite (split_output_lines _ _ Hshape).
  apply filter_none. intros x Hx. apply negb_false_iff, mem_In.
  destruct (mem x (split old)) eqn:Hm.
  - apply in_or_app. left. now apply mem_In.
  - apply in_or_app. right. apply in_or_app. right.
    subst kept1. apply filter_In. split; [assumption |]. now rewrite Hm.
Qed.

Lemma main_idempotent_witness :
  fst (main demo_web some_time empty_log) = Ok [link_ab] /\
  fst (main demo_web some_time (snd (main demo_web some_time empty_log))) = Ok [].
Proof.
  split.
  - vm_compute. reflexivity.
  - apply (@main_idempotent demo_web some_time some_time empty_log [link_ab]).
    vm_compute. reflexivity.
Defined.

(** C2. Both probing stages are the stable filter SignalProbe: they keep,
    in input order, exactly the links whose fetch succeeds and whose page
    has the marker exactly when the keep-policy says so; a failed fetch
    only drops its link.  For [[A; B; C]] with [B] failing and the marker
    in the pages of [A] and [C], keeping on presence gives [[A; C]]. *)
Theorem SignalProbe_stable_filter (rg : str -> response) (links : list str) :
  check_setup_py_in_git rg links = SignalProbe rg links (lit "setup.py") true /\
  filter_toml_in_git rg links = SignalProbe rg links (lit "pyproject.toml") false /\
  (forall marker keep link,
      In link (SignalProbe rg links marker keep) <->
      In link links /\ fetch_ok rg link = true /\
      (occurs marker (text (rg link)) <-> keep = true)) /\
  (forall marker A B C,
      fetch_ok rg A = true -> fetch_ok rg B = false -> fetch_ok rg C = true ->
      occurs marker (text (rg A)) -> occurs marker (text (rg C)) ->
      SignalProbe rg [A; B; C] marker true = [A; C]).
Proof.
  split; [apply check_setup_py_in_git_probe |].
  split; [apply filter_toml_in_git_probe |].
  split; [intros; apply SignalProbe_In |].
  intros marker A B C HA HB HC HmA HmC.
  apply contains_occurs in HmA, HmC.
  unfold SignalProbe. simpl. now rewrite HA, HB, HC, HmA, HmC.
Qed.

Example check_setup_py_in_git_ABC :
  check_setup_py_in_git abc_web [lit "A"; lit "B"; lit "C"] = [lit "A"; lit "C"].
Proof. vm_compute. reflexivity. Qed.

(** C3. The history filter keeps, in input order, exactly the candidates
    that are not one of the whitespace-delimited tokens of the blob; the
    test is on whole tokens, not on substrings. *)
Theorem filterout_logged_token_exact (fs : filesystem) (name blob : str)
    (cands : list str) :
  fs name = Some blob ->
  exists kept,
    filterout_logged name cands fs = (Ok kept, fs) /\
    kept = filter (fun c => negb (mem c (split blob))) cands /\
    (forall c, In c kept <-> In c cands /\ ~ is_token blob c).
Proof.
  intros Hfs. eexists. split; [apply (filterout_logged_run _ _ _ Hfs) |].
  split; [reflexivity |].
  intros c. rewrite filter_In, negb_true_iff, mem_false, split_spec. tauto.
Qed.

Lemma filterout_logged_token_exact_witness :
  exists kept,
    filterout_logged log_file_name [link_ab; lit "https://github.com/a"]
      (fun _ => Some (lit "seen https://github.com/a/b"))
    = (Ok kept, fun _ => Some (lit "seen https://github.com/a/b")) /\
    kept = filter (fun c => negb (mem c (split (lit "seen https://github.com/a/b"))))
             [link_ab; lit "https://github.com/a"] /\
    (forall c, In c kept <->
               In c [link_ab; lit "https://github.com/a"] /\
               ~ is_token (lit "seen https://github.com/a/b") c).
Proof.
  apply (@filterout_logged_token_exact
           (fun _ => Some (lit "seen https://github.com/a/b")) log_file_name
           (lit "seen https://github.com/a/b")
           [link_ab; lit "https://github.com/a"]).
  reflexivity.
Defined.

(** A candidate that is only a substring of a logged token is kept. *)
Example filterout_logged_substring_kept :
  occurs (lit "https://github.com/a") (lit "seen https://github.com/a/b") /\
  fst (filterout_logged log_file_name [link_ab; lit "https://github.com/a"]
         (fun _ => Some (lit "seen https://github.com/a/b")))
  = Ok [lit "https://github.com/a"].
Proof.
  split; [| vm_compute; reflexivity].
  exists (lit "seen "), (lit "/b"). reflexivity.
Qed.



(** The text of the log file after appending two links to a log that
    already holds a block. *)
Example append_after_earlier_block :
  snd (append_file log_file_name (output_lines some_time [link_ab; link_ce])
         seen_log) log_file_name
  = Some ([LF; LF; LF; LF] ++ lit "Results 2024-08-11 09:00:00 :" ++ [LF]
          ++ lit "https://github.com/x/y" ++ [LF]
          ++ [LF; LF; LF; LF] ++ lit "Results 2024-08-12 10:11:12.004816 :" ++ [LF]
          ++ lit "https://github.com/a/b" ++ [LF]
          ++ lit "https://github.com/c/e" ++ [LF]) /\
  snd (append_file log_file_name (output_lines some_time []) seen_log) log_file_name
  = Some ([LF; LF; LF; LF] ++ lit "Results 2024-08-11 09:00:00 :" ++ [LF]
          ++ lit "https://github.com/x/y" ++ [LF]
          ++ [LF; LF; LF; LF] ++ lit "Results 2024-08-12 10:11:12.004816 :" ++ [LF]
          ++ [LF]).
Proof. split; vm_compute; reflexivity. Qed.

(** ** Where the metadata and listing stages depart from their description *)

Lemma get_link_from_pdig_failed (rg : str -> response) (page : str) :
  status_code (rg page) <> 200%Z -> get_link_from_pdig rg page = None.
Proof.
  intros H. unfold get_link_from_pdig.
  destruct (Z.eqb_spec (status_code (rg page)) 200); [contradiction | reflexivity].
Qed.

(** C5. The loop over the [project_urls] matches runs for every block, not
    only for the first: two pages with the same first block give different
    results when one of them has a second block. *)
Lemma get_link_from_json_reads_every_block :
  first_block page_one_block = first_block page_two_blocks /\
  get_link_from_json (serve page_one_block) [] = [link_ab] /\
  get_link_from_json (serve page_two_blocks) []
  = [link_ab; lit "https://github.com/c/e"].
Proof. vm_compute. repeat split. Qed.

(** C6. A block in which the Homepage pattern matches twice and the
    Repository pattern once yields three links. *)
Lemma get_link_from_json_three_links :
  get_link_from_json (serve page_three_links) []
  = [link_ab; lit "https://github.com/a/b/wiki"; lit "https://github.com/a/b.git"] /\
  length (get_link_from_json (serve page_three_links) []) = 3.
Proof. vm_compute. split; reflexivity. Qed.

(** C7. The Repository matches are compared with the Homepage matches as
    lists: a Repository value equal to the Homepage value is appended again
    when the block has a second Repository match. *)
Lemma get_link_from_json_repeats_link :
  get_link_from_json (serve page_mirror) []
  = [link_ab; link_ab; lit "https://gitlab.com/a/b"] /\
  ~ NoDup (get_link_from_json (serve page_mirror) []).
Proof.
  assert (E : get_link_from_json (serve page_mirror) []
              = [link_ab; link_ab; lit "https://gitlab.com/a/b"]).
  { vm_compute. reflexivity. }
  split; [exact E |].
  rewrite E. intros H. inversion H as [|x l Hnotin _]. apply Hnotin. now left.
Qed.

(** C8. When the listing request does not answer 200 the listing stage
    returns no list at all, and [main] stops with a type error at its first
    loop instead of going on with zero candidates. *)
Lemma listing_failure_stops_main :
  get_link_from_pdig unavailable pydigger_link = None /\
  main unavailable some_time empty_log = (Raise TypeError, empty_log).
Proof.
  assert (H : get_link_from_pdig unavailable pydigger_link = None).
  { apply get_link_from_pdig_failed. discriminate. }
  split; [exact H |]. now apply main_listing_failed.
Qed.

(** ** Shape of the links and growth of the log file *)

(** C9. Every string the metadata stage returns starts with [https://git]
    and continues with letters, hyphens, underscores, slashes and dots
    only; in particular no digit follows the prefix. *)
Theorem extracted_link_shape (rg : str -> response) (json_site x : str) :
  In x (get_link_from_json rg json_site) ->
  exists rest,
    x = lit "https://git" ++ rest /\ rest <> [] /\
    Forall (fun c => link_char c = true) rest /\
    Forall (fun c => isdigit c = false) rest.
Proof.
  intros Hx. pose proof (get_link_from_json_shape rg json_site) as Hs.
  rewrite Forall_forall in Hs. exact (Hs x Hx).
Qed.

Lemma extracted_link_shape_witness :
  In link_ab (get_link_from_json (serve page_one_block) []) /\
  exists rest,
    link_ab = lit "https://git" ++ rest /\ rest <> [] /\
    Forall (fun c => link_char c = true) rest /\
    Forall (fun c => isdigit c = false) rest.
Proof.
  assert (H : In link_ab (get_link_from_json (serve page_one_block) [])).
  { vm_compute. left. reflexivity. }
  split; [exact H |].
  exact (@extracted_link_shape (serve page_one_block) [] link_ab H).
Defined.

(** C10. A run that reaches the append step always makes the log file
    strictly longer: the block is appended even when the final list is
    empty, and then holds the separator, the header line and an empty
    body line. *)
Theorem main_always_appends (rg : str -> response) (utc_now : datetime)
    (fs : filesystem) (kept : list str) :
  fst (main rg utc_now fs) = Ok kept ->
  exists old,
    fs log_file_name = Some old /\
    snd (main rg utc_now fs) log_file_name
    = Some (old ++ output_lines utc_now kept) /\
    length old < length (old ++ output_lines utc_now kept) /\
    (kept = [] ->
     output_lines utc_now kept = separator ++ header utc_now ++ newline ++ newline).
Proof.
  intros H. destruct (main_Ok_inv _ _ _ H) as (links & old & Hlist & Hlog & Hkept).
  exists old. split; [assumption |].
  rewrite (main_run _ utc_now _ Hlist Hlog). simpl snd. rewrite <- Hkept.
  split; [apply write_file_same |].
  split.
  - rewrite length_app. unfold output_lines. rewrite length_app. simpl. lia.
  - intros ->. now rewrite output_lines_parts.
Qed.

Lemma main_always_appends_witness :
  fst (main demo_web some_time (snd (main demo_web some_time empty_log))) = Ok [] /\
  exists old,
    snd (main demo_web some_time empty_log) log_file_name = Some old /\
    snd (main demo_web some_time (snd (main demo_web some_time empty_log)))
      log_file_name
    = Some (old ++ output_lines some_time []) /\
    length old < length (old ++ output_lines some_time []) /\
    (@nil str = [] ->
     output_lines some_time [] = separator ++ header some_time ++ newline ++ newline).
Proof.
  assert (H : fst (main demo_web some_time (snd (main demo_web some_time empty_log)))
              = Ok []).
  { vm_compute. reflexivity. }
  split; [exact H |].
  exact (@main_always_appends demo_web some_time
           (snd (main demo_web some_time empty_log)) [] H).
Defined.

(** * Further properties of the stages *)

(** ** The listing stage *)

Lemma fold_left_append_map {A B : Type} (f : A -> B) (l : list A) (acc : list B) :
  fold_left (fun acc x => acc ++ [f x]) l acc = acc ++ map f l.
Proof.
  revert acc. induction l as [|x l IH]; intros acc; simpl.
  - now rewrite app_nil_r.
  - rewrite IH. now rewrite <- app_assoc.
Qed.

Lemma get_link_from_pdig_map (rg : str -> response) (page : str) :
  status_code (rg page) = 200%Z ->
  get_link_from_pdig rg page
  = Some (map (fun id => lit "https://pydigger.com/pypi/" ++ id)
            (findall pdig_pattern (text (rg page)))).
Proof.
  intros H. unfold get_link_from_pdig. rewrite H. simpl negb. cbv iota.
  now rewrite fold_left_append_map.
Qed.

Lemma get_link_from_pdig_Some (rg : str -> response) (page : str) (links : list str) :
  get_link_from_pdig rg page = Some links -> status_code (rg page) = 200%Z.
Proof.
  unfold get_link_from_pdig.
  destruct (Z.eqb_spec (status_code (rg page)) 200); [auto | discriminate].
Qed.

Lemma match_at_pdig_pattern (s : str) :
  match_at pdig_pattern s
  = match strip_prefix anchor s with
    | Some rest =>
        match run word_or_hyphen rest with
        | [] => None
        | t => Some (length anchor + length t, t)
        end
    | None => None
    end.
Proof.
  unfold pdig_pattern, match_at.
  change (lit "<td><a href=" ++ dquote ++ lit "/pypi/") with anchor.
  rewrite app_nil_r. destruct (strip_prefix anchor s) as [rest|]; [| reflexivity].
  destruct (run word_or_hyphen rest); [reflexivity |].
  simpl length. now rewrite Nat.add_0_r.
Qed.

Lemma scan_skip (r : regex) (s : str) (pos k : nat) :
  scan r pos k s = scan r (pos + k) 0 (skipn k s).
Proof.
  revert pos k. induction s as [|c s IH]; intros pos k.
  - now rewrite skipn_nil.
  - destruct k as [|k].
    + now rewrite Nat.add_0_r.
    + simpl. rewrite IH. f_equal. lia.
Qed.

Lemma scan_match_head (r : regex) (s t : str) (pos len : nat) :
  match_at r s = Some (len, t) -> 1 <= len -> s <> [] ->
  scan r pos 0 s = (pos, pos + len, t) :: scan r (pos + len) 0 (skipn len s).
Proof.
  intros Hm Hlen Hs. destruct s as [|c s]; [contradiction |].
  simpl scan. rewrite Hm. f_equal. rewrite scan_skip.
  destruct len as [|len]; [lia |]. simpl. rewrite Nat.sub_0_r. f_equal. lia.
Qed.

Lemma prefix_fits (p a b r : str) :
  a ++ b = p ++ r -> length p <= length a -> exists r', a = p ++ r'.
Proof.
  intros E Hlen. exists (skipn (length p) a).
  rewrite <- (firstn_skipn (length p) a) at 1. f_equal.
  assert (H : firstn (length p) (a ++ b) = firstn (length p) (p ++ r)) by now rewrite E.
  rewrite !firstn_app, Nat.sub_diag, firstn_all in H.
  replace (length p - length a) with 0 in H by lia.
  simpl in H. now rewrite !app_nil_r in H.
Qed.

Lemma anchor_last : anchor = removelast anchor ++ ["/"%char].
Proof. reflexivity. Qed.

Lemma strip_prefix_anchor_free (u rest : str) :
  u <> [] ->
  strip_prefix anchor (u ++ removelast anchor) = None ->
  rest = [] \/ (exists more, rest = anchor ++ more) ->
  strip_prefix anchor (u ++ rest) = None.
Proof.
  intros Hu Hnone Hrest.
  destruct (strip_prefix anchor (u ++ rest)) as [r|] eqn:E; [exfalso | reflexivity].
  apply strip_prefix_app in E.
  assert (Hsome : exists r', u ++ removelast anchor = anchor ++ r').
  { destruct Hrest as [-> | (more & ->)].
    - rewrite app_nil_r in E. subst u.
      exists (r ++ removelast anchor). now rewrite <- app_assoc.
    - rewrite anchor_last in E at 1. rewrite <- app_assoc, app_assoc in E.
      apply (@prefix_fits _ _ _ _ E).
      rewrite length_app. destruct u; [contradiction |].
      change (length (removelast anchor)) with 18.
      change (length anchor) with 19. simpl. lia. }
  destruct Hsome as (r' & Hr'). apply strip_prefix_app in Hr'. congruence.
Qed.

Lemma contains_cons_false (m s : str) (c : ascii) :
  contains m (c :: s) = false ->
  strip_prefix m (c :: s) = None /\ contains m s = false.
Proof.
  intros H. change (contains m (c :: s))
    with (match strip_prefix m (c :: s) with
          | Some _ => true
          | None => contains m s
          end) in H.
  destruct (strip_prefix m (c :: s)); [discriminate | now split].
Qed.

Lemma scan_anchor_free (t rest : str) (pos : nat) :
  anchor_free t ->
  rest = [] \/ (exists more, rest = anchor ++ more) ->
  scan pdig_pattern pos 0 (t ++ rest) = scan pdig_pattern (pos + length t) 0 rest.
Proof.
  intros Ht Hrest. revert pos. induction t as [|c t IH]; intros pos.
  - simpl. now rewrite Nat.add_0_r.
  - unfold anchor_free in Ht. rewrite <- app_comm_cons in Ht.
    apply contains_cons_false in Ht. destruct Ht as [E Ht].
    rewrite <- app_comm_cons.
    change (scan pdig_pattern pos 0 (c :: t ++ rest))
      with (match match_at pdig_pattern (c :: t ++ rest) with
            | Some (len, x) =>
                (pos, pos + len, x) :: scan pdig_pattern (S pos) (len - 1) (t ++ rest)
            | None => scan pdig_pattern (S pos) 0 (t ++ rest)
            end).
    rewrite match_at_pdig_pattern, app_comm_cons.
    rewrite (@strip_prefix_anchor_free (c :: t) rest); [| discriminate | exact E | exact Hrest].
    rewrite (IH Ht). f_equal. simpl. lia.
Qed.

Lemma render_rows_cases (rows : list (str * str)) :
  render_rows rows = [] \/ exists more, render_rows rows = anchor ++ more.
Proof.
  destruct rows as [|row rows]; [now left | right].
  simpl. rewrite <- app_assoc. eauto.
Qed.

Lemma findall_rows (rows : list (str * str)) (pos : nat) :
  Forall row_ok rows ->
  map snd (scan pdig_pattern pos 0 (render_rows rows)) = map fst rows.
Proof.
  intros Hrows. revert pos.
  induction Hrows as [|[id tail] rows (Hne & Hid & (c & q & Htail & Hc) & Hfree) _ IH];
    intros pos; [reflexivity |].
  simpl in Hne, Hid, Htail, Hfree.
  change (render_rows ((id, tail) :: rows))
    with ((anchor ++ id ++ tail) ++ render_rows rows).
  assert (Es : (anchor ++ id ++ tail) ++ render_rows rows
               = (anchor ++ id) ++ tail ++ render_rows rows)
    by now rewrite <- !app_assoc.
  rewrite Es.
  erewrite scan_match_head with (len := length (anchor ++ id)) (t := id).
  - rewrite skipn_length_app. simpl map. f_equal.
    rewrite (@scan_anchor_free tail (render_rows rows) _ Hfree (render_rows_cases rows)). apply IH.
  - rewrite match_at_pdig_pattern.
    rewrite (proj2 (strip_prefix_app anchor _ (id ++ tail ++ render_rows rows)))
      by now rewrite <- app_assoc.
    subst tail. simpl app. rewrite (@run_stop word_or_hyphen id (q ++ render_rows rows) c Hid Hc).
    destruct id; [contradiction | reflexivity].
  - rewrite length_app. change (length anchor) with 19. lia.
  - discriminate.
Qed.

(** X1. Every link the listing stage returns is the metadata address
    [https://pydigger.com/pypi/] followed by a non-empty identifier made of
    word characters and hyphens. *)
Theorem listing_links_shape (rg : str -> response) (page : str) (links : list str) :
  get_link_from_pdig rg page = Some links ->
  Forall
    (fun link =>
       exists id,
         link = lit "https://pydigger.com/pypi/" ++ id /\ id <> [] /\
         Forall (fun c => word_or_hyphen c = true) id)
    links.
Proof.
  intros H. pose proof (get_link_from_pdig_Some _ _ H) as Hok.
  rewrite (get_link_from_pdig_map _ _ Hok) in H. injection H as <-.
  apply Forall_forall. intros link Hin. apply in_map_iff in Hin.
  destruct Hin as (id & <- & Hid). exists id. split; [reflexivity |].
  apply findall_group_shape in Hid. destruct Hid as (t & -> & Hne & Ht).
  now split.
Qed.

Lemma listing_links_shape_witness :
  Forall
    (fun link =>
       exists id,
         link = lit "https://pydigger.com/pypi/" ++ id /\ id <> [] /\
         Forall (fun c => word_or_hyphen c = true) id)
    [lit "https://pydigger.com/pypi/demo-pkg"].
Proof.
  apply (@listing_links_shape demo_web pydigger_link).
  vm_compute. reflexivity.
Defined.

(** X2. A listing page made of well-formed rows yields one metadata link
    per row, in document order: the listing is read back row by row. *)
Theorem listing_rows_read_back (rg : str -> response) (page pre : str)
    (rows : list (str * str)) :
  status_code (rg page) = 200%Z ->
  text (rg page) = pre ++ render_rows rows ->
  anchor_free pre ->
  Forall row_ok rows ->
  get_link_from_pdig rg page
  = Some (map (fun row => lit "https://pydigger.com/pypi/" ++ fst row) rows).
Proof.
  intros Hok Htext Hpre Hrows.
  rewrite (get_link_from_pdig_map _ _ Hok), Htext. f_equal.
  unfold findall.
  rewrite (@scan_anchor_free pre (render_rows rows) 0 Hpre (render_rows_cases rows)).
  rewrite (findall_rows _ Hrows). now rewrite map_map.
Qed.

Lemma listing_rows_read_back_witness :
  get_link_from_pdig (serve (listing_head ++ render_rows two_rows)) []
  = Some [lit "https://pydigger.com/pypi/demo-pkg";
          lit "https://pydigger.com/pypi/other_pkg2"].
Proof.
  apply (@listing_rows_read_back (serve (listing_head ++ render_rows two_rows)) []
           listing_head two_rows).
  - reflexivity.
  - reflexivity.
  - vm_compute. reflexivity.
  - repeat constructor; simpl; try discriminate.
    + exists "034"%char, (lit ">demo-pkg</a></td><td>1.0</td></tr><tr>").
      split; reflexivity.
    + exists "034"%char, (lit ">other_pkg2</a></td></tr></table>").
      split; reflexivity.
Defined.

(** ** The metadata stage *)

Lemma scan_none (r : regex) (l s : str) (pos skip : nat) :
  (forall s', strip_prefix l s' = None -> match_at r s' = None) ->
  contains l s = false -> scan r pos skip s = [].
Proof.
  intros Hr. revert pos skip. induction s as [|c s IH]; intros pos skip Hc.
  - reflexivity.
  - apply contains_cons_false in Hc. destruct Hc as [E Hc].
    destruct skip as [|k]; simpl.
    + rewrite (Hr _ E). now apply IH.
    + now apply IH.
Qed.

Lemma finditer_star_none (l s : str) (cls : ascii -> bool) :
  contains l s = false -> finditer (RLitStar l cls) s = [].
Proof.
  intros H. unfold finditer. rewrite (@scan_none _ l); auto.
  intros s' E. simpl. now rewrite E.
Qed.

Lemma findall_group_none (l g s : str) (cls : ascii -> bool) :
  contains (l ++ g) s = false -> findall (RLitGroupPlus l g cls) s = [].
Proof.
  intros H. unfold findall. rewrite (@scan_none _ (l ++ g)); auto.
  intros s' E. simpl. now rewrite E.
Qed.

Lemma occurs_slice (m s : str) (a b : nat) : occurs m (slice s a b) -> occurs m s.
Proof.
  unfold slice. intros (pre & post & E).
  exists (firstn a s ++ pre), (post ++ skipn (b - a) (skipn a s)).
  rewrite <- (firstn_skipn a s) at 1.
  rewrite <- (firstn_skipn (b - a) (skipn a s)) at 1.
  rewrite E. now rewrite <- !app_assoc.
Qed.

Lemma contains_slice_false (m s : str) (a b : nat) :
  contains m s = false -> contains m (slice s a b) = false.
Proof.
  intros H. destruct (contains m (slice s a b)) eqn:E; [| reflexivity].
  apply contains_occurs, occurs_slice, contains_occurs in E. congruence.
Qed.

Lemma list_eqb_eq (a b : list str) : list_eqb a b = true <-> a = b.
Proof.
  unfold list_eqb.
  destruct (list_eq_dec (list_eq_dec ascii_dec) a b); split; congruence.
Qed.

(** X3. The metadata stage returns links only for a page that was fetched
    with status 200, mentions [project_urls] and holds a Homepage or a
    Repository entry whose value starts with [https://git]; in every other
    case the result is the empty list. *)
Theorem metadata_links_need_block (rg : str -> response) (json_site : str) :
  get_link_from_json rg json_site <> [] ->
  status_code (rg json_site) = 200%Z /\
  occurs (lit "project_urls") (text (rg json_site)) /\
  (occurs (lit "Homepage&#34;: &#34;https://git") (text (rg json_site)) \/
   occurs (lit "Repository&#34;: &#34;https://git") (text (rg json_site))).
Proof.
  intros Hne. unfold get_link_from_json in Hne.
  destruct (Z.eqb_spec (status_code (rg json_site)) 200) as [Hok | Hko];
    [| now contradiction Hne].
  simpl negb in Hne. cbv iota in Hne. split; [assumption |].
  set (page := text (rg json_site)) in *.
  destruct (contains (lit "project_urls") page) eqn:Eb.
  2:{ exfalso. apply Hne. unfold get_json_pattern.
      now rewrite (@finditer_star_none _ _ not_rbrace Eb). }
  split; [now apply contains_occurs |].
  destruct (contains (lit "Homepage&#34;: &#34;https://git") page) eqn:Eh;
    [left; now apply contains_occurs |].
  destruct (contains (lit "Repository&#34;: &#34;https://git") page) eqn:Er;
    [right; now apply contains_occurs |].
  exfalso. apply Hne.
  apply fold_left_invariant with (P := fun acc : list str => acc = []);
    [| reflexivity].
  intros acc [start stop] _ ->.
  unfold home_regex, rep_regex.
  rewrite (@findall_group_none (lit "Homepage&#34;: &#34;") (lit "https://git") _ git_class)
    by (apply contains_slice_false; exact Eh).
  rewrite (@findall_group_none (lit "Repository&#34;: &#34;") (lit "https://git") _ git_class)
    by (apply contains_slice_false; exact Er).
  reflexivity.
Qed.

Lemma metadata_links_need_block_witness :
  status_code (serve page_one_block []) = 200%Z /\
  occurs (lit "project_urls") (text (serve page_one_block [])) /\
  (occurs (lit "Homepage&#34;: &#34;https://git") (text (serve page_one_block [])) \/
   occurs (lit "Repository&#34;: &#34;https://git") (text (serve page_one_block []))).
Proof.
  apply (@metadata_links_need_block (serve page_one_block) []).
  vm_compute. discriminate.
Defined.

(** X4. When the page has at most one [project_urls] block and each of the
    two entry patterns matches at most once in it, the metadata stage
    returns at most two links and never the same link twice. *)
Theorem metadata_links_single_block (rg : str -> response) (json_site : str) :
  length (finditer get_json_pattern (text (rg json_site))) <= 1 ->
  (forall start stop,
      In (start, stop) (finditer get_json_pattern (text (rg json_site))) ->
      length (findall home_regex (slice (text (rg json_site)) start stop)) <= 1 /\
      length (findall rep_regex (slice (text (rg json_site)) start stop)) <= 1) ->
  length (get_link_from_json rg json_site) <= 2 /\
  NoDup (get_link_from_json rg json_site).
Proof.
  intros Hblocks Hmatches. unfold get_link_from_json.
  destruct (negb (status_code (rg json_site) =? 200)%Z);
    [split; [simpl; lia | constructor] |].
  destruct (finditer get_json_pattern (text (rg json_site)))
    as [|[start stop] [|m ms]];
    [split; [simpl; lia | constructor] | | simpl in Hblocks; lia].
  destruct (Hmatches start stop (or_introl eq_refl)) as [Hh Hr].
  cbn [fold_left]. cbv zeta.
  destruct (findall home_regex (slice (text (rg json_site)) start stop))
    as [|h [|h' hs]]; [| | simpl in Hh; lia];
    destruct (findall rep_regex (slice (text (rg json_site)) start stop))
      as [|r [|r' rs]]; try (simpl in Hr; lia); cbn [truthy andb app].
  - split; [simpl; lia | constructor].
  - destruct (list_eqb [r] []) eqn:E;
      [apply list_eqb_eq in E; discriminate |].
    cbn [negb]. split; [simpl; lia | repeat constructor; simpl; tauto].
  - split; [simpl; lia | repeat constructor; simpl; tauto].
  - destruct (list_eqb [r] [h]) eqn:E; cbn [negb app].
    + split; [simpl; lia | repeat constructor; simpl; tauto].
    + split; [simpl; lia |].
      constructor; [| repeat constructor; simpl; tauto].
      intros [Heq | []]. subst.
      rewrite (proj2 (list_eqb_eq _ _) eq_refl) in E. discriminate.
Qed.

Lemma metadata_links_single_block_witness :
  length (get_link_from_json (serve page_one_block) []) <= 2 /\
  NoDup (get_link_from_json (serve page_one_block) []).
Proof.
  apply (@metadata_links_single_block (serve page_one_block) []).
  - vm_compute. apply le_n.
  - intros start stop H. vm_compute in H. destruct H as [H | []].
    injection H as <- <-. vm_compute. split; repeat constructor.
Defined.

(** ** The probing stages *)

Lemma filter_comm {A : Type} (p q : A -> bool) (l : list A) :
  filter p (filter q l) = filter q (filter p l).
Proof.
  induction l as [|x l IH]; simpl; [reflexivity |].
  destruct (p x) eqn:Hp, (q x) eqn:Hq; simpl; rewrite ?Hp, ?Hq, IH; reflexivity.
Qed.

Lemma filter_idem {A : Type} (p : A -> bool) (l : list A) :
  filter p (filter p l) = filter p l.
Proof.
  induction l as [|x l IH]; simpl; [reflexivity |].
  destruct (p x) eqn:Hp; simpl; rewrite ?Hp, IH; reflexivity.
Qed.

Lemma probes_In (rg : str -> response) (links : list str) (x : str) :
  In x (filter_toml_in_git rg (check_setup_py_in_git rg links)) <->
  In x links /\ fetch_ok rg x = true /\
  occurs (lit "setup.py") (text (rg x)) /\
  ~ occurs (lit "pyproject.toml") (text (rg x)).
Proof.
  rewrite filter_toml_in_git_probe, check_setup_py_in_git_probe.
  rewrite !SignalProbe_In. split.
  - intros ((Hin & _ & Hs) & Hok & Ht). repeat split; try assumption.
    + now apply Hs.
    + intros Ho. apply Ht in Ho. discriminate.
  - intros (Hin & Hok & Hs & Ht).
    split; [split; [assumption | split; [assumption | tauto]] |].
    split; [assumption | split; [intros Ho; contradiction | discriminate]].
Qed.

(** X5. The two probing stages compose as a conjunction: a link survives
    both exactly when its page is fetched with status 200, mentions
    [setup.py] and does not mention [pyproject.toml]; the order of the two
    stages does not matter for the result. *)
Theorem probes_compose (rg : str -> response) (links : list str) :
  (forall x,
      In x (filter_toml_in_git rg (check_setup_py_in_git rg links)) <->
      In x links /\ fetch_ok rg x = true /\
      occurs (lit "setup.py") (text (rg x)) /\
      ~ occurs (lit "pyproject.toml") (text (rg x))) /\
  filter_toml_in_git rg (check_setup_py_in_git rg links)
  = check_setup_py_in_git rg (filter_toml_in_git rg links).
Proof.
  split; [intros x; apply probes_In |].
  rewrite !filter_toml_in_git_probe, !check_setup_py_in_git_probe.
  unfold SignalProbe. apply filter_comm.
Qed.

(** X6. Each probing stage decides link by link: the result for a
    concatenation is the concatenation of the results, and probing a
    result again changes nothing. *)
Theorem probes_per_link (rg : str -> response) (l1 l2 : list str) :
  check_setup_py_in_git rg (l1 ++ l2)
  = check_setup_py_in_git rg l1 ++ check_setup_py_in_git rg l2 /\
  filter_toml_in_git rg (l1 ++ l2)
  = filter_toml_in_git rg l1 ++ filter_toml_in_git rg l2 /\
  check_setup_py_in_git rg (check_setup_py_in_git rg l1)
  = check_setup_py_in_git rg l1 /\
  filter_toml_in_git rg (filter_toml_in_git rg l1) = filter_toml_in_git rg l1.
Proof.
  rewrite !filter_toml_in_git_probe, !check_setup_py_in_git_probe.
  unfold SignalProbe. rewrite !filter_app, !filter_idem. auto.
Qed.

(** ** The history filter *)

Lemma split_from_blank (s : str) :
  Forall (fun c => isspace c = true) s -> split_from [] s = [].
Proof.
  induction 1 as [|c s Hc _ IH]; simpl; [reflexivity |]. now rewrite Hc.
Qed.

Lemma filter_all {A : Type} (p : A -> bool) (l : list A) :
  (forall x, In x l -> p x = true) -> filter p l = l.
Proof.
  induction l as [|x l IH]; intros H; simpl; [reflexivity |].
  rewrite (H x) by now left. f_equal. apply IH. intros y Hy. apply H. now right.
Qed.

(** X7. A candidate that is empty or holds a white-space character is
    never removed by the history filter, whatever the log file holds:
    such a string is never one of the tokens of the log. *)
Theorem history_filter_keeps_non_words (fs : filesystem) (name blob : str)
    (cands : list str) (c : str) :
  fs name = Some blob ->
  In c cands ->
  c = [] \/ (exists w, In w c /\ isspace w = true) ->
  exists kept, filterout_logged name cands fs = (Ok kept, fs) /\ In c kept.
Proof.
  intros Hfs Hin Hc. eexists. split; [apply (filterout_logged_run _ _ _ Hfs) |].
  apply filter_In. split; [assumption |].
  apply negb_true_iff, mem_false. rewrite split_spec.
  intros (Hne & Hns & _). destruct Hc as [-> | (w & Hw & Hsp)]; [now apply Hne |].
  unfold no_space in Hns. rewrite Forall_forall in Hns.
  specialize (Hns w Hw). congruence.
Qed.

Lemma history_filter_keeps_non_words_witness :
  exists kept,
    filterout_logged log_file_name [lit "a b"; lit "b"]
      (fun _ => Some (lit "a b"))
    = (Ok kept, fun _ => Some (lit "a b")) /\
    In (lit "a b") kept.
Proof.
  apply (@history_filter_keeps_non_words
           (fun _ => Some (lit "a b")) log_file_name (lit "a b")
           [lit "a b"; lit "b"] (lit "a b")).
  - reflexivity.
  - left. reflexivity.
  - right. exists " "%char. split; [right; left; reflexivity | reflexivity].
Defined.

(** X8. With a log file that holds white space only (in particular an
    empty one) the history filter returns the candidates unchanged and
    leaves the files alone. *)
Theorem history_filter_blank_log (fs : filesystem) (name blob : str)
    (cands : list str) :
  fs name = Some blob ->
  Forall (fun c => isspace c = true) blob ->
  filterout_logged name cands fs = (Ok cands, fs).
Proof.
  intros Hfs Hblank. rewrite (filterout_logged_run _ _ _ Hfs).
  unfold split. rewrite (split_from_blank Hblank). now rewrite filter_all.
Qed.

Lemma history_filter_blank_log_witness :
  filterout_logged log_file_name [link_ab; link_ab] empty_log
  = (Ok [link_ab; link_ab], empty_log).
Proof.
  apply (@history_filter_blank_log empty_log log_file_name [] [link_ab; link_ab]).
  - reflexivity.
  - constructor.
Defined.

(** ** Whole runs *)

Lemma main_kept_words (rg : str -> response) (utc_now : datetime)
    (fs : filesystem) (kept : list str) :
  fst (main rg utc_now fs) = Ok kept ->
  Forall (fun t => t <> [] /\ no_space t) kept.
Proof.
  intros H. destruct (main_Ok_inv _ _ _ H) as (links & old & _ & _ & ->).
  apply Forall_forall. intros x Hx. apply hosting_link_is_word.
  apply filter_In in Hx. destruct Hx as [Hx _].
  pose proof (probed_links_shape rg links) as Hs.
  rewrite Forall_forall in Hs. now apply Hs.
Qed.

Lemma main_log_after (rg : str -> response) (utc_now : datetime)
    (fs : filesystem) (kept : list str) :
  fst (main rg utc_now fs) = Ok kept ->
  exists old,
    fs log_file_name = Some old /\
    snd (main rg utc_now fs)
    = write_file fs log_file_name (old ++ output_lines utc_now kept).
Proof.
  intros H. destruct (main_Ok_inv _ _ _ H) as (links & old & Hlist & Hlog & Hkept).
  exists old. split; [assumption |].
  rewrite (main_run _ utc_now _ Hlist Hlog). simpl snd. now rewrite <- Hkept.
Qed.

(** X9. A run completes only if the listing request answered 200 and the
    log file existed before the run.  When the listing request answers
    another status the run stops with a type error, and when the log file
    is missing the run does not complete; in both cases the files are left
    as they were. *)
Theorem main_completes_only_if (rg : str -> response) (utc_now : datetime)
    (fs : filesystem) :
  (forall kept,
      fst (main rg utc_now fs) = Ok kept ->
      status_code (rg pydigger_link) = 200%Z /\
      exists old, fs log_file_name = Some old) /\
  (status_code (rg pydigger_link) <> 200%Z ->
   main rg utc_now fs = (Raise TypeError, fs)) /\
  (fs log_file_name = None ->
   (forall kept, fst (main rg utc_now fs) <> Ok kept) /\
   snd (main rg utc_now fs) = fs).
Proof.
  split; [| split].
  - intros kept H.
    destruct (main_Ok_inv _ _ _ H) as (links & old & Hlist & Hlog & _).
    split; [exact (get_link_from_pdig_Some _ _ Hlist) | now exists old].
  - intros H. apply main_listing_failed. now apply get_link_from_pdig_failed.
  - intros Hlog. split.
    + intros kept H.
      destruct (main_Ok_inv _ _ _ H) as (links & old & _ & Hlog' & _). congruence.
    + destruct (get_link_from_pdig rg pydigger_link) as [links|] eqn:Hlist.
      * now rewrite (main_log_missing _ utc_now _ Hlist Hlog).
      * now rewrite (main_listing_failed _ utc_now _ Hlist).
Qed.

(** A run on the small web without a log file, and a run against a
    service that is down. *)
Example main_without_log_or_listing :
  main demo_web some_time no_files = (Raise FileNotFoundError, no_files) /\
  main unavailable some_time seen_log = (Raise TypeError, seen_log).
Proof. split; vm_compute; reflexivity. Qed.

(** X10. A run never touches a file other than the log file, never
    creates the log file and never removes or rewrites what the log file
    already holds. *)
Theorem main_touches_log_only (rg : str -> response) (utc_now : datetime)
    (fs : filesystem) :
  (forall name, name <> log_file_name -> snd (main rg utc_now fs) name = fs name) /\
  (fs log_file_name = None -> snd (main rg utc_now fs) log_file_name = None) /\
  (forall old,
      fs log_file_name = Some old ->
      exists suffix, snd (main rg utc_now fs) log_file_name = Some (old ++ suffix)).
Proof.
  destruct (get_link_from_pdig rg pydigger_link) as [links|] eqn:Hlist.
  - destruct (fs log_file_name) as [old|] eqn:Hlog.
    + rewrite (main_run _ utc_now _ Hlist Hlog). simpl snd.
      split; [intros name Hn; now apply write_file_other |].
      split; [discriminate |].
      intros old' [= <-]. eexists. apply write_file_same.
    + rewrite (main_log_missing _ utc_now _ Hlist Hlog). simpl snd.
      split; [reflexivity | split; [intros _; exact Hlog |]].
      intros old H. congruence.
  - rewrite (main_listing_failed _ utc_now _ Hlist). simpl snd.
    split; [reflexivity | split; [auto |]].
    intros old H. exists []. now rewrite app_nil_r.
Qed.



(** X12. After a completed run the tokens of the log file are the tokens
    it had before, then the tokens of the header line, then the reported
    links in order: this is the list the next run's history filter reads. *)
Theorem log_tokens_after_run (rg : str -> response) (utc_now : datetime)
    (fs : filesystem) (kept : list str) :
  fst (main rg utc_now fs) = Ok kept ->
  exists old new,
    fs log_file_name = Some old /\
    snd (main rg utc_now fs) log_file_name = Some new /\
    split new = split old ++ split (header utc_now) ++ kept.
Proof.
  intros H. destruct (main_log_after _ _ _ H) as (old & Hlog & Hfs).
  exists old, (old ++ output_lines utc_now kept).
  split; [assumption |]. rewrite Hfs.
  split; [apply write_file_same |].
  apply split_output_lines. exact (main_kept_words _ _ _ H).
Qed.

Lemma log_tokens_after_run_witness :
  exists old new,
    empty_log log_file_name = Some old /\
    snd (main demo_web some_time empty_log) log_file_name = Some new /\
    split new = split old ++ split (header some_time) ++ [link_ab].
Proof.
  apply (@log_tokens_after_run demo_web some_time empty_log [link_ab]).
  vm_compute. reflexivity.
Defined.

(** X13. A link reported by a completed run is not reported by the next
    run on the same files, whatever the remote services answer then. *)
Theorem never_reported_twice (rg1 rg2 : str -> response) (now1 now2 : datetime)
    (fs : filesystem) (kept1 kept2 : list str) (x : str) :
  fst (main rg1 now1 fs) = Ok kept1 ->
  fst (main rg2 now2 (snd (main rg1 now1 fs))) = Ok kept2 ->
  In x kept1 -> ~ In x kept2.
Proof.
  intros H1 H2 Hx1 Hx2.
  destruct (main_log_after _ _ _ H1) as (old & Hlog & Hfs).
  destruct (main_Ok_inv _ _ _ H2) as (links2 & old2 & _ & Hlog2 & ->).
  rewrite Hfs, write_file_same in Hlog2. injection Hlog2 as <-.
  apply filter_In in Hx2. destruct Hx2 as [_ Hx2].
  apply negb_true_iff, mem_false in Hx2. apply Hx2.
  rewrite (split_output_lines _ _ (main_kept_words _ _ _ H1)).
  apply in_or_app. right. apply in_or_app. now right.
Qed.

Lemma never_reported_twice_witness :
  fst (main later_web some_time (snd (main demo_web some_time empty_log)))
  = Ok [lit "https://github.com/c/e"] /\
  ~ In link_ab [lit "https://github.com/c/e"].
Proof.
  assert (H2 : fst (main later_web some_time (snd (main demo_web some_time empty_log)))
               = Ok [lit "https://github.com/c/e"]).
  { vm_compute. reflexivity. }
  split; [exact H2 |].
  apply (@never_reported_twice demo_web later_web some_time some_time empty_log
           [link_ab] [lit "https://github.com/c/e"] link_ab).
  - vm_compute. reflexivity.
  - exact H2.
  - left. reflexivity.
Defined.

(** X14. A listing page that is fetched with status 200 but holds no row
    anchor gives an empty list of candidates, not a failure: the run then
    completes with an empty final list and appends a block with an empty
    body to the log file. *)
Theorem empty_listing_completes (rg : str -> response) (utc_now : datetime)
    (fs : filesystem) (old : str) :
  status_code (rg pydigger_link) = 200%Z ->
  ~ occurs anchor (text (rg pydigger_link)) ->
  fs log_file_name = Some old ->
  get_link_from_pdig rg pydigger_link = Some [] /\
  main rg utc_now fs
  = (Ok [], write_file fs log_file_name (old ++ output_lines utc_now [])).
Proof.
  intros Hok Hno Hlog.
  assert (Hlist : get_link_from_pdig rg pydigger_link = Some []).
  { rewrite (get_link_from_pdig_map _ _ Hok). unfold pdig_pattern.
    rewrite findall_group_none; [reflexivity |].
    rewrite app_nil_r. change (lit "<td><a href=" ++ dquote ++ lit "/pypi/") with anchor.
    destruct (contains anchor (text (rg pydigger_link))) eqn:E; [| reflexivity].
    apply contains_occurs in E. contradiction. }
  split; [exact Hlist |].
  now rewrite (main_run _ utc_now _ Hlist Hlog).
Qed.

Lemma empty_listing_completes_witness :
  get_link_from_pdig (serve (lit "<html>no projects</html>")) pydigger_link = Some [] /\
  main (serve (lit "<html>no projects</html>")) some_time empty_log
  = (Ok [], write_file empty_log log_file_name ([] ++ output_lines some_time [])).
Proof.
  apply (@empty_listing_completes (serve (lit "<html>no projects</html>"))
           some_time empty_log []).
  - reflexivity.
  - intros H. apply contains_occurs in H. vm_compute in H. discriminate.
  - reflexivity.
Defined.
